(** * FastTrig: integer trigonometry kernel (fast_trig.hpp)

    A shallow embedding of [FastTrig::IntegerTrig<TableSize>] and of
    [FastTrig::AngleConvert].  Machine integers are values of [Z]; every
    conversion the C++ performs (integral promotion to [int], the usual
    arithmetic conversions to [unsigned int], the narrowing on assignment,
    on [static_cast] and on [return]) is written out as an explicit
    wrap-around. *)

From Stdlib Require Import ZArith List Lia Bool.
Import ListNotations.
Local Open Scope Z_scope.

(** ** Fixed-width integers *)

Module CInt.

(** Conversion to an unsigned type of [w] bits. *)
Definition to_unsigned (w x : Z) : Z := x mod 2 ^ w.

(** Conversion to a signed two's complement type of [w] bits. *)
Definition to_signed (w x : Z) : Z :=
  (x + 2 ^ (w - 1)) mod 2 ^ w - 2 ^ (w - 1).

Definition u8 : Z -> Z := to_unsigned 8.
Definition u16 : Z -> Z := to_unsigned 16.
Definition u32 : Z -> Z := to_unsigned 32.
Definition i16 : Z -> Z := to_signed 16.
Definition i32 : Z -> Z := to_signed 32.

Definition in_i16 (x : Z) : Prop := -32768 <= x <= 32767.
Definition in_i32 (x : Z) : Prop := -2147483648 <= x <= 2147483647.

(** An integer used as a condition ([if (quadrant & 1)]). *)
Definition truthy (x : Z) : bool := negb (x =? 0).

(** [int32 / int]: undefined for a zero divisor, truncating otherwise. *)
Definition cdiv (a b : Z) : option Z :=
  if b =? 0 then None else Some (i32 (Z.quot a b)).

(** A C++ comparison used as an integer operand ([(x < 0) << 1]). *)
Definition b2z (b : bool) : Z := if b then 1 else 0.

Fixpoint ctz_pos (p : positive) : Z :=
  match p with
  | xO q => 1 + ctz_pos q
  | _ => 0
  end.

(** [__builtin_ctz]; the argument 0 (undefined in C++) is sent to 0. *)
Definition builtin_ctz (x : Z) : Z :=
  match x with
  | Zpos p => ctz_pos p
  | _ => 0
  end.

(** [table[i]] on a [std::array].  For a valid table size the kernel clamps
    or masks every index into range; an index out of range (undefined in
    C++) reads 0 here. *)
Definition at_index (table : list Z) (i : Z) : Z :=
  nth (Z.to_nat i) table 0.

(** The index range of [for (std::size_t i = 0; i < n; ++i)]. *)
Definition indices (n : Z) : list Z :=
  map Z.of_nat (seq 0 (Z.to_nat n)).

End CInt.

Import CInt.

(** ** The kernel, for one table size *)

Module IntegerTrig.

Definition ANGLE_MAX : Z := 8192.
Definition OUTPUT_SCALE : Z := 8192.

(** The [requires] clause of the class template. *)
Definition valid_table_size (n : Z) : bool :=
  (8 <=? n) && (n <=? 4096) && (Z.land n (n - 1) =? 0).

(** Table generation for sine: [sin_internal]. *)
Definition sin_internal (angle : Z) : Z :=
  let x := u32 angle in
  let term := Z.shiftr (u32 (x * u32 (16384 - x))) 14 in
  let numerator := i32 (u32 (Z.shiftl term 2)) in
  let denominator := i32 (u32 (16487 - term)) in
  if denominator =? 0 then i16 (OUTPUT_SCALE * 2)
  else i16 (Z.quot (i32 (i32 (numerator * OUTPUT_SCALE) * 2)) denominator).

Section Instantiation.

Variable TableSize : Z.

Definition TABLE_BITS : Z := builtin_ctz TableSize.
Definition TABLE_MASK : Z := u32 (TableSize - 1).
Definition RECIPROCAL_QUADRANT : Z :=
  u32 (Z.shiftl TableSize 16 / 4096).

Definition generate_sine_quarter_table : list Z :=
  map (fun i => sin_internal (u32 (i * 16384 / (TableSize - 1))))
      (indices TableSize).

Definition sine_quarter_table : list Z := generate_sine_quarter_table.

(** Linear interpolation between two table entries with a [uint8_t]
    fraction: the product and the shift are done in [int]. *)
Definition interpolate (y0 y1 fraction : Z) : Z :=
  y0 + Z.shiftr (i32 ((y1 - y0) * fraction)) 8.

Definition sin (angle : Z) : Z :=
  let angle := Z.land (u16 angle) 16383 in
  let quadrant := u8 (Z.shiftr angle 12) in
  let position := Z.land angle 4095 in
  let position :=
    if truthy (Z.land quadrant 1) then u16 (4096 - position) else position in
  let index_scaled := u32 (position * RECIPROCAL_QUADRANT) in
  let index := Z.shiftr index_scaled 16 in
  let fraction := u8 (Z.land (Z.shiftr index_scaled 8) 255) in
  let index := if index <? TableSize - 1 then index else u32 (TableSize - 1) in
  let y0 := at_index sine_quarter_table index in
  let y1 := at_index sine_quarter_table (Z.land (u32 (index + 1)) TABLE_MASK) in
  let value := i16 (interpolate y0 y1 fraction) in
  let sign_mask := i16 (- Z.shiftr quadrant 1) in
  i16 (Z.lxor value sign_mask - sign_mask).

Definition cos (angle : Z) : Z :=
  sin (u16 (u16 angle + Z.shiftr ANGLE_MAX 2)).

(** [tan]; [None] stands for a division the C++ leaves undefined. *)
Definition tan (angle : Z) : option Z :=
  let sin_val := sin angle in
  let cos_val := cos angle in
  if (-100 <? cos_val) && (cos_val <? 100) then
    Some (if 0 <=? sin_val then 32767 else -32767)
  else
    match cdiv (i32 (sin_val * OUTPUT_SCALE)) cos_val with
    | None => None
    | Some result =>
        if result >? 32767 then Some 32767
        else if result <? -32767 then Some (-32767)
        else Some (i16 result)
    end.

(** One turn of the inner loop of [generate_atan_quarter_table]; the
    state is [(x, y, angle)] with [x], [y] of type [int32_t] and
    [angle] of type [uint32_t]. *)
Definition atan_cordic_step (target_y : Z) (st : Z * Z * Z) (k : Z)
  : Z * Z * Z :=
  let '(x, y, angle) := st in
  let angle_step := u32 (Z.shiftr 2048 k) in
  if y <? target_y then
    (i32 (x - Z.shiftr y k), i32 (y + Z.shiftr x k), u32 (angle + angle_step))
  else
    (i32 (x + Z.shiftr y k), i32 (y - Z.shiftr x k), u32 (angle - angle_step)).

Definition atan_entry (i : Z) : Z :=
  let target_y := i32 (i * 16384 / TableSize) in
  let '(_, _, angle) :=
    fold_left (atan_cordic_step target_y) (indices 16) (16384, 0, 0) in
  u16 angle.

Definition generate_atan_quarter_table : list Z :=
  map atan_entry (indices TableSize).

Definition atan_quarter_table : list Z := generate_atan_quarter_table.

(** The bisection loop of [generate_asin_quarter_table],
    [while (high - low > 1)], on the bracket [(low, high)].  The loop
    starts from a bracket of width 4096 and halves it, so it has left
    the loop well before [fuel] runs out (see [asin_bracket_closed]). *)
Fixpoint asin_bracket (fuel : nat) (target low high : Z) : Z * Z :=
  match fuel with
  | O => (low, high)
  | S fuel' =>
      if u32 (high - low) >? 1 then
        let mid := u32 (low + high) / 2 in
        let sin_mid := sin_internal mid in
        if sin_mid <? target then asin_bracket fuel' target mid high
        else asin_bracket fuel' target low mid
      else (low, high)
  end.

Definition asin_entry (i : Z) : Z :=
  let target := i32 (i * OUTPUT_SCALE * 2 / TableSize) in
  let '(low, high) := asin_bracket 32 target 0 (ANGLE_MAX / 2) in
  u16 (u32 (low + high) / 2).

Definition generate_asin_quarter_table : list Z :=
  map asin_entry (indices TableSize).

Definition asin_quarter_table : list Z := generate_asin_quarter_table.

(** Interpolation as [atan2] writes it: there the fraction is a
    [uint32_t], so the difference, the product and the sum are all
    converted to [unsigned int] and the shift is logical. *)
Definition interpolate_u32 (y0 y1 fraction : Z) : Z :=
  u32 (y0 + Z.shiftr (u32 (u32 (y1 - y0) * fraction)) 8).

Definition atan_lookup (num den : Z) : Z :=
  let ratio_scaled := u32 (Z.shiftl num TABLE_BITS) / den in
  let index := Z.land ratio_scaled TABLE_MASK in
  let fraction := Z.land (u32 (Z.shiftl num (TABLE_BITS + 8)) / den) 255 in
  let y0 := at_index atan_quarter_table index in
  let y1 := at_index atan_quarter_table (Z.land (u32 (index + 1)) TABLE_MASK) in
  u16 (interpolate_u32 y0 y1 fraction).

Definition quadrant_offset : list Z :=
  [0; u16 (2 * ANGLE_MAX); ANGLE_MAX; ANGLE_MAX].

Definition angle_sign : list Z := [1; -1; -1; 1].

Definition atan2 (y x : Z) : Z :=
  if x =? 0 then
    if y >? 0 then u16 (Z.shiftr ANGLE_MAX 1)
    else if y <? 0 then u16 (Z.shiftr ANGLE_MAX 1 * 3)
    else 0
  else
    let abs_x := u32 (if x <? 0 then - x else x) in
    let abs_y := u32 (if y <? 0 then - y else y) in
    let quadrant_adjust :=
      u8 (Z.lor (Z.shiftl (b2z (x <? 0)) 1) (b2z (y <? 0))) in
    let angle :=
      if abs_x >=? abs_y then atan_lookup abs_y abs_x
      else u16 (Z.shiftr ANGLE_MAX 1 - atan_lookup abs_x abs_y) in
    u16 (at_index quadrant_offset quadrant_adjust
         + angle * at_index angle_sign quadrant_adjust).

Definition atan (value : Z) : Z :=
  atan2 value (i16 (OUTPUT_SCALE * 2)).

Definition asin (value : Z) : Z :=
  let abs_val := u32 (if value <? 0 then - value else value) in
  let abs_val :=
    if abs_val >? OUTPUT_SCALE * 2 then OUTPUT_SCALE * 2 else abs_val in
  let ASIN_RECIPROCAL := u32 (Z.shiftl TableSize 16 / (OUTPUT_SCALE * 2)) in
  let index_scaled := u32 (abs_val * ASIN_RECIPROCAL) in
  let index := Z.shiftr index_scaled 16 in
  let fraction := u8 (Z.land (Z.shiftr index_scaled 8) 255) in
  let index := if index <? TableSize - 1 then index else u32 (TableSize - 1) in
  let y0 := at_index asin_quarter_table index in
  let y1 := at_index asin_quarter_table (Z.land (u32 (index + 1)) TABLE_MASK) in
  let angle := u16 (interpolate y0 y1 fraction) in
  if value <? 0 then u16 (2 * ANGLE_MAX - angle) else angle.

Definition acos (value : Z) : Z :=
  let asin_result := asin value in
  u16 (Z.shiftr ANGLE_MAX 1 - asin_result).

(** [sincos] writes both results through its two reference parameters;
    here they are returned as the pair [(sin_out, cos_out)]. *)
Definition sincos (angle : Z) : Z * Z :=
  let sin_out := sin angle in
  let cos_out := cos angle in
  (sin_out, cos_out).

(** [sizeof] of a [std::array] of 16-bit entries. *)
Definition sizeof_table (table : list Z) : Z := 2 * Z.of_nat (length table).

Definition table_memory : Z :=
  sizeof_table sine_quarter_table + sizeof_table atan_quarter_table
  + sizeof_table asin_quarter_table.

Definition table_size : Z := TableSize.

(** A table read that tells whether the index is inside the array. *)
Definition read (table : list Z) (i : Z) : option Z :=
  if (0 <=? i) && (i <? Z.of_nat (length table))
  then Some (at_index table i) else None.

(** [sin] with every table read checked: [None] when a read falls outside
    [sine_quarter_table]. *)
Definition sin_checked (angle : Z) : option Z :=
  let angle := Z.land (u16 angle) 16383 in
  let quadrant := u8 (Z.shiftr angle 12) in
  let position := Z.land angle 4095 in
  let position :=
    if truthy (Z.land quadrant 1) then u16 (4096 - position) else position in
  let index_scaled := u32 (position * RECIPROCAL_QUADRANT) in
  let index := Z.shiftr index_scaled 16 in
  let fraction := u8 (Z.land (Z.shiftr index_scaled 8) 255) in
  let index := if index <? TableSize - 1 then index else u32 (TableSize - 1) in
  match read sine_quarter_table index,
        read sine_quarter_table (Z.land (u32 (index + 1)) TABLE_MASK) with
  | Some y0, Some y1 =>
      let value := i16 (interpolate y0 y1 fraction) in
      let sign_mask := i16 (- Z.shiftr quadrant 1) in
      Some (i16 (Z.lxor value sign_mask - sign_mask))
  | _, _ => None
  end.

(** [asin] with every table read checked. *)
Definition asin_checked (value : Z) : option Z :=
  let abs_val := u32 (if value <? 0 then - value else value) in
  let abs_val :=
    if abs_val >? OUTPUT_SCALE * 2 then OUTPUT_SCALE * 2 else abs_val in
  let ASIN_RECIPROCAL := u32 (Z.shiftl TableSize 16 / (OUTPUT_SCALE * 2)) in
  let index_scaled := u32 (abs_val * ASIN_RECIPROCAL) in
  let index := Z.shiftr index_scaled 16 in
  let fraction := u8 (Z.land (Z.shiftr index_scaled 8) 255) in
  let index := if index <? TableSize - 1 then index else u32 (TableSize - 1) in
  match read asin_quarter_table index,
        read asin_quarter_table (Z.land (u32 (index + 1)) TABLE_MASK) with
  | Some y0, Some y1 =>
      let angle := u16 (interpolate y0 y1 fraction) in
      Some (if value <? 0 then u16 (2 * ANGLE_MAX - angle) else angle)
  | _, _ => None
  end.

End Instantiation.

(** One turn of the loop of [magnitude], on [(abs_x, abs_y)]. *)
Definition magnitude_step (st : Z * Z) (i : Z) : Z * Z :=
  let '(abs_x, abs_y) := st in
  let x_shift := Z.shiftr abs_x i in
  let y_shift := Z.shiftr abs_y i in
  if abs_y >? 0 then
    let x_new := u32 (abs_x + y_shift) in
    let y_new := if abs_y >? x_shift then u32 (abs_y - x_shift) else 0 in
    (x_new, y_new)
  else (abs_x, abs_y).

(** [magnitude] does not read the tables, so it is the same function in
    every instantiation. *)
Definition magnitude (x y : Z) : Z :=
  let abs_x := u32 (if x <? 0 then i32 (- x) else x) in
  let abs_y := u32 (if y <? 0 then i32 (- y) else y) in
  let '(abs_x, _) := fold_left magnitude_step (indices 12) (abs_x, abs_y) in
  i32 (Z.shiftr (u32 (abs_x * 39797)) 16).

End IntegerTrig.

(** ** Angle conversion *)

Module AngleConvert.

(** [while (cond) body], run for at most [fuel] turns; [None] when the
    condition still holds after them. *)
Fixpoint while_loop {St : Type} (fuel : nat) (cond : St -> bool)
         (body : St -> St) (s : St) : option St :=
  if cond s then
    match fuel with
    | O => None
    | S fuel' => while_loop fuel' cond body (body s)
    end
  else Some s.

Definition add_360 (degrees : Z) : Z := i16 (degrees + 360).
Definition sub_360 (degrees : Z) : Z := i16 (degrees - 360).

Definition from_degrees (fuel : nat) (degrees : Z) : option Z :=
  match while_loop fuel (fun d => d <? 0) add_360 degrees with
  | None => None
  | Some degrees =>
      match while_loop fuel (fun d => d >=? 360) sub_360 degrees with
      | None => None
      | Some degrees => Some (u16 (u32 (u32 degrees * 16384) / 360))
      end
  end.

Definition from_milliradians (mrad : Z) : Z :=
  u16 (u32 (u32 mrad * 16384) / 6283).

Definition to_degrees (angle : Z) : Z :=
  i16 (u32 (u32 angle * 360) / 16384).

End AngleConvert.

(** ** Vectors in Cartesian and polar form *)

Module Vector2D.

Import IntegerTrig.

Record Vec2 : Type := mkVec2 { x : Z; y : Z }.

Record Polar : Type := mkPolar { angle : Z; magnitude : Z }.

Section TrigImpl.

(** The table size of the [TrigImpl] instantiation. *)
Variable TableSize : Z.

Definition to_polar (v : Vec2) : Polar :=
  mkPolar (atan2 TableSize (y v) (x v))
          (i16 (IntegerTrig.magnitude (x v) (y v))).

Definition from_polar (p : Polar) : Vec2 :=
  mkVec2
    (i16 (Z.shiftr (i32 (i32 (magnitude p) * cos TableSize (angle p))) 14))
    (i16 (Z.shiftr (i32 (i32 (magnitude p) * sin TableSize (angle p))) 14)).

Definition rotate (v : Vec2) (angle : Z) : Vec2 :=
  let cos_a := cos TableSize angle in
  let sin_a := sin TableSize angle in
  mkVec2
    (i16 (Z.shiftr (i32 (i32 (i32 (x v) * cos_a) - i32 (i32 (y v) * sin_a))) 14))
    (i16 (Z.shiftr (i32 (i32 (i32 (x v) * sin_a) + i32 (i32 (y v) * cos_a))) 14)).

End TrigImpl.

End Vector2D.

(** ** Properties the documentation states, as executable checks *)

Module Checks.

Import IntegerTrig.

(** [l] never decreases from one entry to the next. *)
Fixpoint nondecreasing (l : list Z) : bool :=
  match l with
  | a :: ((b :: _) as rest) => (a <=? b) && nondecreasing rest
  | _ => true
  end.

(** The build-time invariant of the sine table: first entry 0, last entry
    the amplitude 16384 of sin(pi/2), entries never decreasing. *)
Definition sine_table_invariant (n : Z) : bool :=
  let table := sine_quarter_table n in
  (at_index table 0 =? 0)
  && (at_index table (n - 1) =? 16384)
  && nondecreasing table.

(** [m] is within [tol] of [expected]. *)
Definition within (tol expected m : Z) : bool :=
  Z.abs (m - expected) <=? tol.

(** [m >= 0] differs from sqrt(x^2 + y^2) by at most one percent of it:
    0.99 * r <= m <= 1.01 * r, squared to stay in the integers. *)
Definition within_one_percent (m x y : Z) : bool :=
  let s := x * x + y * y in
  (0 <=? m)
  && (99 * 99 * s <=? (100 * m) * (100 * m))
  && ((100 * m) * (100 * m) <=? 101 * 101 * s).

(** [clamped to [lo, hi]]. *)
Definition clamp (lo hi x : Z) : Z := Z.max lo (Z.min hi x).

Definition standard_sizes : list Z := [32; 64; 128; 256; 512].

End Checks.

Import IntegerTrig AngleConvert Checks.

(** ** Fixed-width integers: ranges and values that fit *)

Section Wrapping.

Lemma i16_range (x : Z) : in_i16 (i16 x).
Proof.
  unfold in_i16, i16, to_signed.
  change (2 ^ (16 - 1)) with 32768. change (2 ^ 16) with 65536.
  pose proof (Z.mod_pos_bound (x + 32768) 65536). lia.
Qed.

Lemma i16_fits (x : Z) : in_i16 x -> i16 x = x.
Proof.
  unfold in_i16, i16, to_signed. intros Hx.
  change (2 ^ (16 - 1)) with 32768. change (2 ^ 16) with 65536.
  rewrite Z.mod_small; lia.
Qed.

Lemma i32_fits (x : Z) : in_i32 x -> i32 x = x.
Proof.
  unfold in_i32, i32, to_signed. intros Hx.
  change (2 ^ (32 - 1)) with 2147483648. change (2 ^ 32) with 4294967296.
  rewrite Z.mod_small; lia.
Qed.

Lemma u16_range (x : Z) : 0 <= u16 x < 65536.
Proof. unfold u16, to_unsigned. apply Z.mod_pos_bound. reflexivity. Qed.

Lemma u16_fits (x : Z) : 0 <= x < 65536 -> u16 x = x.
Proof. unfold u16, to_unsigned. change (2 ^ 16) with 65536. apply Z.mod_small. Qed.

Lemma u32_fits (x : Z) : 0 <= x < 4294967296 -> u32 x = x.
Proof.
  unfold u32, to_unsigned. change (2 ^ 32) with 4294967296. apply Z.mod_small.
Qed.

(** Masking with [0x3FFF] is reduction modulo 16384. *)
Lemma land_16383 (x : Z) : Z.land x 16383 = x mod 16384.
Proof. change 16383 with (Z.ones 14). rewrite Z.land_ones by lia. reflexivity. Qed.

(** The 14-bit fold of [sin] sees a 16-bit angle only modulo 16384. *)
Lemma fold_u16 (x : Z) : Z.land (u16 x) 16383 = x mod 16384.
Proof.
  rewrite land_16383. unfold u16, to_unsigned.
  change (2 ^ 16) with (16384 * 4).
  rewrite Z.rem_mul_r by lia.
  rewrite Z.add_mod, Z.mul_comm, Z.mod_mul, Z.add_0_r by lia.
  rewrite !Z.mod_mod by lia. reflexivity.
Qed.

Lemma u16_mod_16384 (x : Z) : u16 x mod 16384 = x mod 16384.
Proof. rewrite <- land_16383. apply fold_u16. Qed.

End Wrapping.

(** ** Sine and cosine *)

Section SineCosine.

Variable TableSize : Z.

(** [sin] reads its argument modulo one period of 16384 units. *)
Lemma sin_periodic (a b : Z) :
  a mod 16384 = b mod 16384 -> sin TableSize a = sin TableSize b.
Proof.
  intros Hab. unfold sin. rewrite !fold_u16, Hab. reflexivity.
Qed.

Lemma sin_range (a : Z) : in_i16 (sin TableSize a).
Proof. unfold sin. apply i16_range. Qed.

(** What [cos] computes: the phase shift [ANGLE_MAX >> 2] is 2048 units,
    an eighth of the 16384-unit period that [sin] folds by. *)
Lemma cos_shift_2048 (a : Z) :
  cos TableSize a = sin TableSize ((a + 2048) mod 16384).
Proof.
  unfold cos. apply sin_periodic.
  change (Z.shiftr ANGLE_MAX 2) with 2048.
  rewrite Z.mod_mod, u16_mod_16384 by lia.
  rewrite (Z.add_mod (u16 a)), u16_mod_16384 by lia.
  rewrite <- Z.add_mod by lia. reflexivity.
Qed.

Lemma cos_range (a : Z) : in_i16 (cos TableSize a).
Proof. unfold cos. apply sin_range. Qed.

(** The last entry of the generated sine table is the approximation at
    16384, the far end of the half wave [sin_internal] describes. *)
Lemma sine_table_last_entry :
  2 <= TableSize ->
  at_index (sine_quarter_table TableSize) (TableSize - 1) = sin_internal 16384.
Proof.
  intros Hn. unfold at_index, sine_quarter_table, generate_sine_quarter_table, indices.
  rewrite map_map.
  set (f := fun i : nat => sin_internal (u32 (Z.of_nat i * 16384 / (TableSize - 1)))).
  rewrite (nth_indep _ 0 (f 0%nat)) by (rewrite length_map, length_seq; lia).
  rewrite (map_nth f), seq_nth by lia.
  unfold f. rewrite Nat.add_0_l, Z2Nat.id by lia.
  rewrite Z.mul_comm, Z.div_mul by lia. reflexivity.
Qed.

End SineCosine.

(** C1 (code evaluated at the failing input).  With 128 entries [cos 0] is
    21656 while [sin] a quarter period later, at 4096, is 0; the two differ
    at angle 0 in every standard instantiation. *)
Theorem cos_differs_from_quarter_shifted_sin :
  cos 128 0 = 21656
  /\ sin 128 ((0 + 4096) mod 16384) = 0
  /\ forallb (fun n => negb (cos n 0 =? sin n ((0 + 4096) mod 16384)))
             standard_sizes = true.
Proof. vm_compute. repeat split. Qed.

(** C2 (code evaluated at the failing input).  The table generated for 8
    entries rises to 21076 and falls back to 0: its last entry is 0 rather
    than 16384 and it is not nondecreasing; the invariant fails for each of
    the ten valid sizes. *)
Theorem sine_table_is_half_wave :
  generate_sine_quarter_table 8
  = [0; 9073; 16668; 21076; 21076; 16674; 9078; 0]
  /\ at_index (sine_quarter_table 8) (8 - 1) = 0
  /\ nondecreasing (sine_quarter_table 8) = false
  /\ forallb (fun n => valid_table_size n && negb (sine_table_invariant n))
             [8; 16; 32; 64; 128; 256; 512; 1024; 2048; 4096] = true.
Proof. vm_compute. repeat split. Qed.

(** C3 (code evaluated at the failing input).  With 128 entries [sin] is 0
    at all four quadrant boundaries: 0 at 4096, where 16384 is expected, and
    0 at 12288, where -16384 is expected. *)
Theorem sin_at_quadrant_boundaries :
  sin 128 0 = 0 /\ sin 128 4096 = 0 /\ sin 128 8192 = 0 /\ sin 128 12288 = 0
  /\ within 1 16384 (sin 128 4096) = false
  /\ within 1 (-16384) (sin 128 12288) = false.
Proof. vm_compute. repeat split. Qed.

(** ** Tangent *)

Section Tangent.

(** Truncating division by a nonzero divisor never grows the dividend. *)
Lemma quot_abs_le (a c : Z) : c <> 0 -> Z.abs (Z.quot a c) <= Z.abs a.
Proof.
  intros Hc. rewrite <- Z.quot_abs by assumption.
  rewrite Z.quot_div_nonneg by lia.
  apply Z.div_le_upper_bound; nia.
Qed.

(** The product [int32_t(sin_val) * OUTPUT_SCALE] fits 32 bits. *)
Lemma scaled_sine_fits (s : Z) : in_i16 s -> in_i32 (s * OUTPUT_SCALE).
Proof. unfold in_i16, in_i32, OUTPUT_SCALE. lia. Qed.

Lemma saturating_cast (q : Z) :
  (if q >? 32767 then Some 32767
   else if q <? -32767 then Some (-32767)
   else Some (i16 q)) = Some (clamp (-32767) 32767 q).
Proof.
  unfold clamp.
  destruct (Z.gtb_spec q 32767) as [Hhi | Hhi].
  - f_equal. lia.
  - destruct (Z.ltb_spec q (-32767)) as [Hlo | Hlo]; f_equal.
    + lia.
    + rewrite i16_fits by (unfold in_i16; lia). lia.
Qed.

End Tangent.

(** C7.  [tan] always returns: when |cos a| < 100 the result is +32767 for
    sin a >= 0 and -32767 for sin a < 0; otherwise it is the truncating
    quotient (sin a * 8192) / cos a clamped to [-32767, 32767].  No
    division is left undefined and no intermediate value overflows. *)
Theorem tan_saturates_or_divides (TableSize a : Z) :
  tan TableSize a =
  Some (if Z.abs (cos TableSize a) <? 100
        then (if 0 <=? sin TableSize a then 32767 else -32767)
        else clamp (-32767) 32767
               (Z.quot (sin TableSize a * 8192) (cos TableSize a))).
Proof.
  unfold tan.
  pose proof (sin_range TableSize a) as Hs.
  pose proof (cos_range TableSize a) as Hc.
  set (s := sin TableSize a) in *. set (c := cos TableSize a) in *.
  destruct (Z.ltb_spec (Z.abs c) 100) as [Hnear | Hfar].
  - replace ((-100 <? c) && (c <? 100)) with true; [reflexivity |].
    symmetry. apply andb_true_iff. split; apply Z.ltb_lt; lia.
  - replace ((-100 <? c) && (c <? 100)) with false.
    + unfold cdiv.
      assert (Hc0 : c <> 0) by lia.
      apply Z.eqb_neq in Hc0 as Hc0b. rewrite Hc0b.
      pose proof (scaled_sine_fits s Hs) as Hprod.
      rewrite (i32_fits (s * OUTPUT_SCALE)) by assumption.
      pose proof (quot_abs_le (s * OUTPUT_SCALE) c Hc0) as Hq.
      rewrite i32_fits by (unfold in_i32, in_i16, OUTPUT_SCALE in *; lia).
      apply saturating_cast.
    + symmetry. apply andb_false_iff.
      destruct (Z.le_ge_cases 0 c); [right | left]; apply Z.ltb_ge; lia.
Qed.

(** Both branches occur with 128 entries: saturation at 2048, where [cos]
    is 0, and a quotient at 1000. *)
Example tan_128_examples :
  tan 128 2048 = Some 32767 /\ cos 128 2048 = 0
  /\ tan 128 1000 = Some 8082
  /\ sin 128 1000 = 14805 /\ cos 128 1000 = 15005.
Proof. vm_compute. repeat split. Qed.

(** ** Two-argument arctangent on the vertical axis *)

(** C8.  For x = 0, [atan2] returns 4096 (pi/2) when y > 0, 12288 (3 pi/2)
    when y < 0, and 0 when y = 0, whatever the table size. *)
Theorem atan2_on_vertical_axis (TableSize y : Z) :
  atan2 TableSize y 0 =
  if 0 <? y then 4096 else if y <? 0 then 12288 else 0.
Proof.
  unfold atan2. rewrite Z.eqb_refl, Z.gtb_ltb.
  destruct (0 <? y); [reflexivity |].
  destruct (y <? 0); reflexivity.
Qed.

(** ** Table generation for arcsine: the bisection leaves its loop *)

Lemma asin_bracket_closed (fuel : nat) (target low high : Z) :
  0 <= low <= high -> high < 2147483648 ->
  high - low <= 2 ^ Z.of_nat fuel ->
  let '(l, h) := asin_bracket fuel target low high in
  0 <= l <= h /\ h < 2147483648 /\ u32 (h - l) <= 1.
Proof.
  revert low high.
  induction fuel as [| fuel IH]; intros low high Hlh Hhi Hw.
  - cbn [asin_bracket]. change (2 ^ Z.of_nat 0) with 1 in Hw.
    rewrite u32_fits by lia. lia.
  - cbn [asin_bracket].
    rewrite Nat2Z.inj_succ, Z.pow_succ_r in Hw by lia.
    rewrite (u32_fits (high - low)) by lia.
    destruct (Z.gtb_spec (high - low) 1) as [Hopen | Hshut].
    + rewrite (u32_fits (low + high)) by lia.
      pose proof (Z.div_mod (low + high) 2 ltac:(lia)) as Hmid.
      pose proof (Z.mod_pos_bound (low + high) 2 ltac:(lia)) as Hrem.
      destruct (sin_internal ((low + high) / 2) <? target); apply IH; lia.
    + rewrite u32_fits by lia. lia.
Qed.

(** The generator starts every bisection from the bracket (0, 4096): the
    allowance of 32 turns is never used up. *)
Corollary asin_entry_bracket_closed (target : Z) :
  let '(l, h) := asin_bracket 32 target 0 (ANGLE_MAX / 2) in u32 (h - l) <= 1.
Proof.
  pose proof (asin_bracket_closed 32 target 0 (ANGLE_MAX / 2)) as H.
  destruct (asin_bracket 32 target 0 (ANGLE_MAX / 2)) as [l h].
  apply H; change (ANGLE_MAX / 2) with 4096; change (2 ^ Z.of_nat 32) with 4294967296; lia.
Qed.

(** ** Arcsine and arccosine: what the clamp and the subtraction do *)

Section InverseSine.

Variable TableSize : Z.

Lemma asin_range (v : Z) : 0 <= asin TableSize v < 65536.
Proof. unfold asin. destruct (v <? 0); apply u16_range. Qed.

(** The clamp of [asin] acts from [OUTPUT_SCALE * 2 = 16384] on. *)
Lemma asin_clamps_at_16384 (v : Z) :
  in_i16 v -> 16384 <= v -> asin TableSize v = asin TableSize 16384.
Proof.
  unfold in_i16. intros Hv Hbig. unfold asin.
  assert (Hsign : (v <? 0) = false) by (apply Z.ltb_ge; lia).
  rewrite Hsign. change (16384 <? 0) with false. cbv iota.
  rewrite (u32_fits v) by lia.
  change (u32 16384) with 16384. change (OUTPUT_SCALE * 2) with 16384.
  change (16384 >? 16384) with false. cbv iota.
  destruct (Z.gtb_spec v 16384) as [Hgt | Hle].
  - reflexivity.
  - replace v with 16384 by lia. reflexivity.
Qed.

(** [acos] subtracts in [int] and narrows to 16 bits, so the two results
    always add up to 4096 modulo 65536, and to nothing closer. *)
Lemma asin_plus_acos_mod_65536 (v : Z) :
  (asin TableSize v + acos TableSize v) mod 65536 = 4096.
Proof.
  unfold acos. change (Z.shiftr ANGLE_MAX 1) with 4096.
  unfold u16, to_unsigned. change (2 ^ 16) with 65536.
  rewrite Zplus_mod_idemp_r.
  replace (asin TableSize v + (4096 - asin TableSize v)) with 4096 by lia.
  reflexivity.
Qed.

End InverseSine.

(** ** Magnitude on the x axis *)

Section MagnitudeAxis.

Lemma magnitude_loop_idle (steps : list Z) (abs_x : Z) :
  fold_left magnitude_step steps (abs_x, 0) = (abs_x, 0).
Proof. induction steps as [| i steps IH]; [reflexivity | exact IH]. Qed.

(** With y = 0 the loop leaves x alone and only the gain is applied. *)
Lemma magnitude_on_axis (x : Z) :
  0 <= x <= 100000 -> magnitude x 0 = x * 39797 / 65536.
Proof.
  intros Hx. unfold magnitude.
  assert (Hsign : (x <? 0) = false) by (apply Z.ltb_ge; lia).
  rewrite Hsign. change (0 <? 0) with false. cbv iota.
  change (u32 0) with 0. rewrite magnitude_loop_idle.
  rewrite (u32_fits x), (u32_fits (x * 39797)) by lia.
  rewrite Z.shiftr_div_pow2 by lia. change (2 ^ 16) with 65536.
  apply i32_fits. unfold in_i32.
  pose proof (Z.div_pos (x * 39797) 65536 ltac:(lia) ltac:(lia)).
  assert (x * 39797 / 65536 < 2147483648) by (apply Z.div_lt_upper_bound; lia).
  lia.
Qed.

End MagnitudeAxis.

(** ** Inverse functions and magnitude at the documented inputs *)

(** C5 (code evaluated at the failing input).  With 128 entries the first
    entry of the arctangent table is 65183, which is what [atan2 1000 1000]
    returns; in degrees the four inputs give 1432, 187, 367 and 90, where
    45, 135, 315 and 90 are expected. *)
Theorem atan2_quadrant_degrees :
  at_index (atan_quarter_table 128) 0 = 65183
  /\ atan2 128 1000 1000 = 65183
  /\ to_degrees (atan2 128 1000 1000) = 1432
  /\ to_degrees (atan2 128 1000 (-1000)) = 187
  /\ to_degrees (atan2 128 (-1000) 1000) = 367
  /\ to_degrees (atan2 128 1000 0) = 90.
Proof. vm_compute. repeat split. Qed.

(** C6 (code evaluated at the failing input).  With 128 entries
    [asin 8192] is 2101 and [acos 8192] is 1995, where 4096 and 0 are
    expected; 10000 is not clamped to 8192, and the input has to reach 16384
    before the result stops changing, at 4095. *)
Theorem asin_acos_beyond_8192 :
  asin 128 8192 = 2101 /\ acos 128 8192 = 1995
  /\ asin 128 10000 = 2593 /\ acos 128 10000 = 1503
  /\ asin 128 16384 = 4095 /\ asin 128 32767 = 4095.
Proof. vm_compute. repeat split. Qed.

(** C9 (code evaluated at the failing input).  With 128 entries
    [asin (-1000)] is 16132 and [acos (-1000)] is 53500: the two unsigned
    angles add up to 69632, that is 4096 plus 65536, not to 4096 within
    10. *)
Theorem asin_plus_acos_negative_input :
  asin 128 (-1000) = 16132 /\ acos 128 (-1000) = 53500
  /\ asin 128 (-1000) + acos 128 (-1000) = 69632
  /\ within 10 4096 (asin 128 (-1000) + acos 128 (-1000)) = false.
Proof. vm_compute. repeat split. Qed.

(** C4 (code evaluated at the failing input).  [magnitude 1000 0] is 607:
    with y = 0 the loop never changes x and only the gain 39797 / 65536 is
    applied; [magnitude 3000 4000] is 4554.  Neither is within one percent
    of the Euclidean norm (1000 and 5000). *)
Theorem magnitude_off_by_gain :
  magnitude 1000 0 = 607
  /\ within_one_percent (magnitude 1000 0) 1000 0 = false
  /\ magnitude 3000 4000 = 4554
  /\ within_one_percent (magnitude 3000 4000) 3000 4000 = false.
Proof. vm_compute. repeat split. Qed.

(** ** Degrees to internal units *)

Section Degrees.

(** The first loop, [while (degrees < 0) degrees += 360]: from a 16-bit
    value no lower than [-360 * fuel] it ends within [fuel] turns, on the
    residue modulo 360 when it ran at all. *)
Lemma raise_loop_ends (fuel : nat) (d : Z) :
  in_i16 d -> - (360 * Z.of_nat fuel) <= d ->
  while_loop fuel (fun d => d <? 0) add_360 d
  = Some (if d <? 0 then d mod 360 else d).
Proof.
  unfold in_i16. revert d.
  induction fuel as [| fuel IH]; intros d Hd Hlow;
    destruct (Z.ltb_spec d 0) as [Hneg | Hpos];
    cbn [while_loop];
    try (apply Z.ltb_ge in Hpos as Hc; rewrite Hc; reflexivity);
    apply Z.ltb_lt in Hneg as Hc; rewrite Hc.
  - lia.
  - assert (Hstep : add_360 d = d + 360)
      by (unfold add_360; apply i16_fits; unfold in_i16; lia).
    rewrite Hstep, IH by lia.
    f_equal. destruct (Z.ltb_spec (d + 360) 0);
      Z.to_euclidean_division_equations; lia.
Qed.

(** The second loop, [while (degrees >= 360) degrees -= 360]. *)
Lemma lower_loop_ends (fuel : nat) (d : Z) :
  0 <= d <= 32767 -> d < 360 * (Z.of_nat fuel + 1) ->
  while_loop fuel (fun d => d >=? 360) sub_360 d = Some (d mod 360).
Proof.
  revert d.
  induction fuel as [| fuel IH]; intros d Hd Hhigh;
    destruct (Z.geb_spec d 360) as [Hbig | Hsmall];
    cbn [while_loop].
  - lia.
  - destruct (Z.geb_spec d 360); [lia |]. rewrite Z.mod_small by lia. reflexivity.
  - destruct (Z.geb_spec d 360); [| lia].
    assert (Hstep : sub_360 d = d - 360)
      by (unfold sub_360; apply i16_fits; unfold in_i16; lia).
    rewrite Hstep, IH by lia.
    f_equal. Z.to_euclidean_division_equations; lia.
  - destruct (Z.geb_spec d 360); [lia |]. rewrite Z.mod_small by lia. reflexivity.
Qed.

End Degrees.

(** C10.  For every signed 16-bit [degrees], [from_degrees] ends: 92 turns
    are enough for each of its two loops (and any larger allowance gives the
    same result), and the angle it returns lies in [0, 16384). *)
Theorem from_degrees_total (fuel : nat) (degrees : Z) :
  (92 <= fuel)%nat -> in_i16 degrees ->
  exists r, from_degrees fuel degrees = Some r
            /\ r = degrees mod 360 * 16384 / 360
            /\ 0 <= r < 16384.
Proof.
  intros Hfuel Hd. unfold in_i16 in Hd.
  exists (degrees mod 360 * 16384 / 360).
  pose proof (Z.mod_pos_bound degrees 360 ltac:(lia)) as Hm.
  assert (Hr : 0 <= degrees mod 360 * 16384 / 360 < 16384).
  { split.
    - apply Z.div_pos; lia.
    - apply Z.div_lt_upper_bound; lia. }
  split; [| split; [reflexivity | exact Hr]].
  unfold from_degrees.
  rewrite raise_loop_ends by (unfold in_i16; lia).
  set (d1 := if degrees <? 0 then degrees mod 360 else degrees).
  assert (Hd1 : 0 <= d1 <= 32767 /\ d1 mod 360 = degrees mod 360).
  { unfold d1. destruct (Z.ltb_spec degrees 0).
    - rewrite Z.mod_mod by lia. lia.
    - lia. }
  rewrite lower_loop_ends by lia.
  destruct Hd1 as [_ ->].
  rewrite (u32_fits (degrees mod 360)) by lia.
  rewrite (u32_fits (degrees mod 360 * 16384)) by lia.
  rewrite u16_fits by lia. reflexivity.
Qed.

Lemma from_degrees_total_witness :
  exists r, from_degrees 92 (-32768) = Some r
            /\ r = (-32768) mod 360 * 16384 / 360
            /\ 0 <= r < 16384.
Proof.
  apply (from_degrees_total 92 (-32768)); [lia | unfold in_i16; lia].
Defined.

(** ** Sine: amplitude, sign and symmetry *)

Section SineShape.

Lemma u8_range (x : Z) : 0 <= u8 x <= 255.
Proof.
  unfold u8, to_unsigned. change (2 ^ 8) with 256.
  pose proof (Z.mod_pos_bound x 256). lia.
Qed.

Lemma i16_neg_neg (v : Z) : in_i16 v -> i16 (- i16 (- v)) = v.
Proof.
  unfold in_i16. intros Hv.
  destruct (Z.eq_dec v (-32768)) as [-> | Hne]; [reflexivity |].
  rewrite (i16_fits (- v)) by (unfold in_i16; lia).
  rewrite Z.opp_involutive. apply i16_fits. unfold in_i16. lia.
Qed.

(** The rational approximation stays between 0 and 21663 on the angles
    the sine generator feeds it. *)
Lemma sin_internal_bounds (x : Z) :
  0 <= x <= 16384 -> 0 <= sin_internal x <= 21663.
Proof.
  intros Hx. unfold sin_internal.
  rewrite (u32_fits x), (u32_fits (16384 - x)) by lia.
  assert (Hprod : 0 <= x * (16384 - x) <= 67108864)
    by (pose proof (Z.square_nonneg (x - 8192)); nia).
  rewrite (u32_fits (x * (16384 - x))) by lia.
  rewrite Z.shiftr_div_pow2 by lia. change (2 ^ 14) with 16384.
  set (term := x * (16384 - x) / 16384).
  assert (Hterm : 0 <= term <= 4096).
  { unfold term. split.
    - apply Z.div_pos; lia.
    - apply Z.div_le_upper_bound; lia. }
  rewrite Z.shiftl_mul_pow2 by lia. change (2 ^ 2) with 4.
  rewrite (u32_fits (term * 4)), (u32_fits (16487 - term)) by lia.
  rewrite (i32_fits (term * 4)), (i32_fits (16487 - term))
    by (unfold in_i32; lia).
  destruct (Z.eqb_spec (16487 - term) 0) as [Hz | _]; [lia |].
  unfold OUTPUT_SCALE.
  rewrite (i32_fits (term * 4 * 8192)) by (unfold in_i32; lia).
  rewrite (i32_fits (term * 4 * 8192 * 2)) by (unfold in_i32; lia).
  rewrite Z.quot_div_nonneg by lia.
  assert (Hq : 0 <= term * 4 * 8192 * 2 / (16487 - term) < 21664).
  { split.
    - apply Z.div_pos; lia.
    - apply Z.div_lt_upper_bound; lia. }
  rewrite i16_fits by (unfold in_i16; lia). lia.
Qed.

Lemma at_index_bound (P : Z -> Prop) (table : list Z) (i : Z) :
  P 0 -> Forall P table -> P (at_index table i).
Proof.
  intros H0 Hall. unfold at_index.
  destruct (nth_in_or_default (Z.to_nat i) table 0) as [Hin | ->].
  - rewrite Forall_forall in Hall. apply Hall, Hin.
  - exact H0.
Qed.

Lemma in_indices (n i : Z) : In i (indices n) -> 0 <= i < n.
Proof.
  unfold indices. rewrite in_map_iff. intros [k [<- Hk]].
  apply in_seq in Hk. lia.
Qed.

Lemma sine_table_bounds (TableSize : Z) :
  Forall (fun e => 0 <= e <= 21663) (sine_quarter_table TableSize).
Proof.
  unfold sine_quarter_table, generate_sine_quarter_table.
  apply Forall_forall. intros e He.
  apply in_map_iff in He as [i [<- Hi]]. apply in_indices in Hi.
  apply sin_internal_bounds.
  assert (Hang : 0 <= i * 16384 / (TableSize - 1) <= 16384).
  { destruct (Z.eq_dec TableSize 1) as [-> | Hne].
    - change (1 - 1) with 0. rewrite Z.div_0_r. lia.
    - split.
      + apply Z.div_pos; lia.
      + apply Z.div_le_upper_bound; nia. }
  rewrite u32_fits; lia.
Qed.

(** Interpolation between two entries of [0, top] stays in [0, top]. *)
Lemma interpolate_bounds (top y0 y1 fraction : Z) :
  top <= 65535 -> 0 <= y0 <= top -> 0 <= y1 <= top -> 0 <= fraction <= 255 ->
  Z.min y0 y1 <= interpolate y0 y1 fraction <= Z.max y0 y1.
Proof.
  intros Htop H0 H1 Hf. unfold interpolate.
  assert (Hfit : in_i32 ((y1 - y0) * fraction)) by (unfold in_i32; nia).
  rewrite i32_fits by assumption.
  rewrite Z.shiftr_div_pow2 by lia. change (2 ^ 8) with 256.
  pose proof (Z.div_mod ((y1 - y0) * fraction) 256 ltac:(lia)) as Hdm.
  pose proof (Z.mod_pos_bound ((y1 - y0) * fraction) 256 ltac:(lia)) as Hr.
  nia.
Qed.

Variable TableSize : Z.

(** Quadrant and position of a folded angle, and of the angle half a
    period later. *)
Lemma fold_half_period (a : Z) :
  let m := a mod 16384 in
  let m' := (a + 8192) mod 16384 in
  Z.land m' 4095 = Z.land m 4095
  /\ Z.land (u8 (Z.shiftr m' 12)) 1 = Z.land (u8 (Z.shiftr m 12)) 1
  /\ Z.shiftr (u8 (Z.shiftr m 12)) 1 = (if m <? 8192 then 0 else 1)
  /\ Z.shiftr (u8 (Z.shiftr m' 12)) 1 = (if m <? 8192 then 1 else 0).
Proof.
  intros m m'.
  pose proof (Z.mod_pos_bound a 16384 ltac:(lia)) as Hm. fold m in Hm.
  assert (Hm' : m' = if m <? 8192 then m + 8192 else m - 8192).
  { unfold m', m. destruct (Z.ltb_spec (a mod 16384) 8192);
      Z.to_euclidean_division_equations; lia. }
  assert (Hq : forall n, 0 <= n < 16384 ->
             u8 (Z.shiftr n 12) = n / 4096 /\ 0 <= n / 4096 <= 3).
  { intros n Hn. rewrite Z.shiftr_div_pow2 by lia. change (2 ^ 12) with 4096.
    assert (0 <= n / 4096 <= 3) by (Z.to_euclidean_division_equations; lia).
    split; [| assumption].
    unfold u8, to_unsigned. apply Z.mod_small. change (2 ^ 8) with 256. lia. }
  assert (Hm'r : 0 <= m' < 16384) by (apply Z.mod_pos_bound; lia).
  destruct (Hq m Hm) as [-> Hqm]. destruct (Hq m' Hm'r) as [-> Hqm'].
  change 4095 with (Z.ones 12). change 1 with (Z.ones 1) at 1 2.
  rewrite !Z.land_ones by lia. rewrite !Z.shiftr_div_pow2 by lia.
  change (2 ^ 12) with 4096. change (2 ^ 1) with 2.
  rewrite Hm'. destruct (Z.ltb_spec m 8192);
    repeat split; Z.to_euclidean_division_equations; lia.
Qed.

Lemma sin_value_and_sign (a : Z) :
  exists value, 0 <= value <= 21663
    /\ sin TableSize a = (if a mod 16384 <? 8192 then value else - value)
    /\ sin TableSize (a + 8192) = (if a mod 16384 <? 8192 then - value else value).
Proof.
  destruct (fold_half_period a) as (Hp & Hodd & Hs & Hs'). cbv zeta in *.
  unfold sin. rewrite !fold_u16. cbv zeta.
  rewrite Hp, Hodd, Hs, Hs'.
  match goal with
  | |- context [i16 (interpolate ?y0 ?y1 ?f)] =>
      set (raw := interpolate y0 y1 f);
      assert (Hraw : 0 <= raw <= 21663)
  end.
  { pose proof (sine_table_bounds TableSize) as Hall. subst raw.
    match goal with
    | |- 0 <= interpolate ?y0 ?y1 ?f <= _ =>
        assert (H0 : 0 <= y0 <= 21663)
          by (apply (at_index_bound (fun e => 0 <= e <= 21663)); [lia | exact Hall]);
        assert (H1 : 0 <= y1 <= 21663)
          by (apply (at_index_bound (fun e => 0 <= e <= 21663)); [lia | exact Hall]);
        pose proof (interpolate_bounds 21663 y0 y1 f ltac:(lia) H0 H1 (u8_range _))
    end. lia. }
  exists raw. split; [exact Hraw |].
  rewrite (i16_fits raw) by (unfold in_i16; lia).
  destruct (a mod 16384 <? 8192).
  - change (i16 (Z.opp 0)) with 0. change (i16 (Z.opp 1)) with (-1).
    rewrite Z.lxor_0_r, Z.lxor_m1_r. unfold Z.lnot.
    unfold Z.pred.
    split; (rewrite i16_fits by (unfold in_i16; lia)); lia.
  - change (i16 (Z.opp 0)) with 0. change (i16 (Z.opp 1)) with (-1).
    rewrite Z.lxor_0_r, Z.lxor_m1_r. unfold Z.lnot.
    unfold Z.pred.
    split; (rewrite i16_fits by (unfold in_i16; lia)); lia.
Qed.

End SineShape.

(** X1.  [sin] has period 16384: adding any whole number of periods to the
    angle leaves the result unchanged, for every table size. *)
Theorem sin_period_16384 (TableSize a k : Z) :
  sin TableSize (a + 16384 * k) = sin TableSize a.
Proof.
  apply sin_periodic. rewrite Z.mul_comm. apply Z_mod_plus_full.
Qed.

(** X2.  Half a period later [sin] returns exactly the negated value; the
    branchless negation never wraps. *)
Theorem sin_half_period_negates (TableSize a : Z) :
  sin TableSize (a + 8192) = - sin TableSize a.
Proof.
  destruct (sin_value_and_sign TableSize a) as (value & _ & -> & ->).
  destruct (a mod 16384 <? 8192); lia.
Qed.

(** X3.  [sin] is between 0 and 21663 on the first half period (folded angle
    below 8192) and between -21663 and 0 on the second, for every table
    size. *)
Theorem sin_sign_and_amplitude (TableSize a : Z) :
  0 <= (if a mod 16384 <? 8192 then sin TableSize a else - sin TableSize a)
    <= 21663.
Proof.
  destruct (sin_value_and_sign TableSize a) as (value & Hv & -> & _).
  destruct (a mod 16384 <? 8192); lia.
Qed.

(** ** Table sizes and table reads *)

Section Tables.

Lemma length_indices (n : Z) : length (indices n) = Z.to_nat n.
Proof. unfold indices. rewrite length_map, length_seq. reflexivity. Qed.

Lemma table_lengths (TableSize : Z) :
  length (sine_quarter_table TableSize) = Z.to_nat TableSize
  /\ length (atan_quarter_table TableSize) = Z.to_nat TableSize
  /\ length (asin_quarter_table TableSize) = Z.to_nat TableSize.
Proof.
  unfold sine_quarter_table, generate_sine_quarter_table,
    atan_quarter_table, generate_atan_quarter_table,
    asin_quarter_table, generate_asin_quarter_table.
  rewrite !length_map, length_indices. auto.
Qed.

Lemma valid_table_size_range (n : Z) :
  valid_table_size n = true -> 8 <= n <= 4096.
Proof.
  unfold valid_table_size. rewrite !andb_true_iff, !Z.leb_le. tauto.
Qed.

Lemma read_inside (table : list Z) (i : Z) :
  0 <= i < Z.of_nat (length table) -> read table i = Some (at_index table i).
Proof.
  intros Hi. unfold read.
  replace (0 <=? i) with true by (symmetry; apply Z.leb_le; lia).
  replace (i <? Z.of_nat (length table)) with true
    by (symmetry; apply Z.ltb_lt; lia).
  reflexivity.
Qed.

Lemma land_le_mask (a mask : Z) : 0 <= a -> 0 <= mask -> Z.land a mask <= mask.
Proof.
  intros Ha Hm.
  rewrite <- (Z2N.id a Ha), <- (Z2N.id mask Hm), <- N2Z.inj_land.
  apply N2Z.inj_le, N.land_le_r.
Qed.

(** The two reads of an interpolation, after the clamp and the mask. *)
Lemma clamped_reads (table : list Z) (n raw : Z) :
  length table = Z.to_nat n -> 1 <= n <= 4096 -> 0 <= raw ->
  let index := if raw <? n - 1 then raw else u32 (n - 1) in
  read table index = Some (at_index table index)
  /\ read table (Z.land (u32 (index + 1)) (TABLE_MASK n))
     = Some (at_index table (Z.land (u32 (index + 1)) (TABLE_MASK n))).
Proof.
  intros Hlen Hn Hraw index.
  assert (Hindex : 0 <= index <= n - 1).
  { unfold index. destruct (Z.ltb_spec raw (n - 1)).
    - lia.
    - rewrite u32_fits; lia. }
  unfold TABLE_MASK. rewrite (u32_fits (n - 1)), (u32_fits (index + 1)) by lia.
  pose proof (Z.land_nonneg (index + 1) (n - 1)) as Hnn.
  pose proof (land_le_mask (index + 1) (n - 1)) as Hub.
  split; apply read_inside; rewrite Hlen; lia.
Qed.

Lemma shiftr_u32_nonneg (x k : Z) : 0 <= Z.shiftr (u32 x) k.
Proof.
  apply Z.shiftr_nonneg. unfold u32, to_unsigned. apply Z.mod_pos_bound. reflexivity.
Qed.

End Tables.

(** X8.  The three generated tables have [TableSize] entries each, so
    [table_memory] is six bytes per entry. *)
Theorem table_memory_is_six_bytes_per_entry (TableSize : Z) :
  0 <= TableSize -> table_memory TableSize = 6 * table_size TableSize.
Proof.
  intros Hn. unfold table_memory, sizeof_table, table_size.
  destruct (table_lengths TableSize) as (-> & -> & ->).
  rewrite Z2Nat.id by assumption. lia.
Qed.

(** X6.  For a valid table size both table reads of [sin] fall inside
    [sine_quarter_table], whatever the angle. *)
Theorem sin_reads_inside_table (TableSize a : Z) :
  valid_table_size TableSize = true ->
  sin_checked TableSize a = Some (sin TableSize a).
Proof.
  intros Hvalid. apply valid_table_size_range in Hvalid.
  destruct (table_lengths TableSize) as (Hlen & _ & _).
  unfold sin_checked, sin. cbv zeta.
  match goal with
  | |- context [read _ (if ?raw <? _ then _ else _)] =>
      destruct (clamped_reads (sine_quarter_table TableSize) TableSize raw
                  Hlen ltac:(lia) (shiftr_u32_nonneg _ _)) as [-> ->]
  end.
  reflexivity.
Qed.

(** X7.  For a valid table size both table reads of [asin] fall inside
    [asin_quarter_table], whatever the input. *)
Theorem asin_reads_inside_table (TableSize v : Z) :
  valid_table_size TableSize = true ->
  asin_checked TableSize v = Some (asin TableSize v).
Proof.
  intros Hvalid. apply valid_table_size_range in Hvalid.
  destruct (table_lengths TableSize) as (_ & _ & Hlen).
  unfold asin_checked, asin. cbv zeta.
  match goal with
  | |- context [read _ (if ?raw <? _ then _ else _)] =>
      destruct (clamped_reads (asin_quarter_table TableSize) TableSize raw
                  Hlen ltac:(lia) (shiftr_u32_nonneg _ _)) as [-> ->]
  end.
  reflexivity.
Qed.

(** ** Arcsine: table entries, range and reflection *)

Section ArcsineShape.

(** The bisection never leaves the bracket it was given. *)
Lemma asin_bracket_inside (fuel : nat) (target low high : Z) :
  0 <= low < high -> high <= 4096 ->
  high - low <= 2 ^ Z.of_nat fuel ->
  let '(l, h) := asin_bracket fuel target low high in
  low <= l /\ h = l + 1 /\ h <= high.
Proof.
  revert low high.
  induction fuel as [| fuel IH]; intros low high Hlh Hhi Hw.
  - cbn [asin_bracket]. change (2 ^ Z.of_nat 0) with 1 in Hw. lia.
  - cbn [asin_bracket].
    rewrite Nat2Z.inj_succ, Z.pow_succ_r in Hw by lia.
    rewrite (u32_fits (high - low)) by lia.
    destruct (Z.gtb_spec (high - low) 1) as [Hopen | Hshut]; [| lia].
    rewrite (u32_fits (low + high)) by lia.
    pose proof (Z.div_mod (low + high) 2 ltac:(lia)) as Hmid.
    pose proof (Z.mod_pos_bound (low + high) 2 ltac:(lia)) as Hrem.
    set (mid := (low + high) / 2) in *.
    destruct (sin_internal mid <? target).
    + pose proof (IH mid high ltac:(lia) ltac:(lia) ltac:(lia)) as H.
      destruct (asin_bracket fuel target mid high). lia.
    + pose proof (IH low mid ltac:(lia) ltac:(lia) ltac:(lia)) as H.
      destruct (asin_bracket fuel target low mid). lia.
Qed.

Variable TableSize : Z.

Lemma asin_table_bounds :
  Forall (fun e => 0 <= e <= 4095) (asin_quarter_table TableSize).
Proof.
  unfold asin_quarter_table, generate_asin_quarter_table.
  apply Forall_forall. intros e He.
  apply in_map_iff in He as [i [<- _]]. unfold asin_entry.
  change (ANGLE_MAX / 2) with 4096.
  set (target := i32 (i * OUTPUT_SCALE * 2 / TableSize)).
  pose proof (asin_bracket_inside 32 target 0 4096 ltac:(lia) ltac:(lia)) as H.
  destruct (asin_bracket 32 target 0 4096) as [l h].
  destruct H as (Hl & -> & Hh);
    [change (2 ^ Z.of_nat 32) with 4294967296; lia |].
  rewrite (u32_fits (l + (l + 1))) by lia.
  replace ((l + (l + 1)) / 2) with l by (Z.to_euclidean_division_equations; lia).
  rewrite u16_fits; lia.
Qed.

(** The angle [asin] interpolates is the same for [v] and [- v]; only the
    final reflection differs. *)
Lemma asin_folded (v : Z) :
  0 <= v ->
  exists angle, 0 <= angle <= 4095
    /\ asin TableSize v = angle
    /\ (0 < v -> asin TableSize (- v) = 16384 - angle).
Proof.
  intros Hv. unfold asin. cbv zeta.
  assert (Hpos : (v <? 0) = false) by (apply Z.ltb_ge; lia).
  rewrite Hpos.
  match goal with
  | |- context [u16 (interpolate ?y0 ?y1 ?f)] =>
      set (raw := interpolate y0 y1 f);
      assert (Hraw : 0 <= raw <= 4095)
  end.
  { subst raw. pose proof asin_table_bounds as Hall.
    match goal with
    | |- 0 <= interpolate ?y0 ?y1 ?f <= _ =>
        assert (H0 : 0 <= y0 <= 4095)
          by (apply (at_index_bound (fun e => 0 <= e <= 4095)); [lia | exact Hall]);
        assert (H1 : 0 <= y1 <= 4095)
          by (apply (at_index_bound (fun e => 0 <= e <= 4095)); [lia | exact Hall]);
        pose proof (interpolate_bounds 4095 y0 y1 f ltac:(lia) H0 H1 (u8_range _))
    end. lia. }
  exists raw. split; [exact Hraw |].
  rewrite (u16_fits raw) by lia. split; [reflexivity |].
  intros Hv0.
  assert (Hneg : (- v <? 0) = true) by (apply Z.ltb_lt; lia).
  rewrite Hneg, Z.opp_involutive. fold raw.
  rewrite (u16_fits raw) by lia.
  change (2 * ANGLE_MAX) with 16384. apply u16_fits. lia.
Qed.

End ArcsineShape.

(** X10.  [asin] returns an angle in [0, 4095] for a nonnegative input and in
    [12289, 16384] for a negative one. *)
Theorem asin_range_by_sign (TableSize v : Z) :
  if v <? 0 then 12289 <= asin TableSize v <= 16384
  else 0 <= asin TableSize v <= 4095.
Proof.
  destruct (Z.ltb_spec v 0) as [Hneg | Hpos].
  - destruct (asin_folded TableSize (- v) ltac:(lia)) as (angle & Ha & _ & Hrefl).
    rewrite Z.opp_involutive in Hrefl. rewrite Hrefl by lia. lia.
  - destruct (asin_folded TableSize v Hpos) as (angle & Ha & -> & _). exact Ha.
Qed.

Lemma asin_reflects_negative (TableSize v : Z) :
  0 < v -> asin TableSize (- v) = 16384 - asin TableSize v.
Proof.
  intros Hv.
  destruct (asin_folded TableSize v ltac:(lia)) as (angle & _ & -> & Hrefl).
  apply Hrefl, Hv.
Qed.

(** X11.  For v > 0, [asin (- v)] is 16384 minus [asin v]. *)
Theorem asin_reflects_negative_input (TableSize v : Z) :
  0 < v -> asin TableSize (- v) = 16384 - asin TableSize v.
Proof. apply asin_reflects_negative. Qed.

Lemma asin_reflects_negative_input_witness :
  asin 128 (- 1000) = 16384 - asin 128 1000.
Proof. apply (asin_reflects_negative_input 128 1000). lia. Defined.

(** X12.  For a nonnegative input [asin] and [acos] add up to exactly 4096, and
    [acos] lies in [1, 4096]. *)
Theorem asin_plus_acos_nonnegative_input (TableSize v : Z) :
  0 <= v ->
  asin TableSize v + acos TableSize v = 4096
  /\ 1 <= acos TableSize v <= 4096.
Proof.
  intros Hv. unfold acos. change (Z.shiftr ANGLE_MAX 1) with 4096.
  destruct (asin_folded TableSize v Hv) as (angle & Ha & -> & _).
  rewrite u16_fits by lia. lia.
Qed.

Lemma asin_plus_acos_nonnegative_input_witness :
  asin 128 1000 + acos 128 1000 = 4096 /\ 1 <= acos 128 1000 <= 4096.
Proof. apply (asin_plus_acos_nonnegative_input 128 1000). lia. Defined.

(** ** Two-argument arctangent: the four quadrants *)

Lemma atan2_reflections (TableSize y x : Z) :
  0 < x -> 0 < y ->
  atan2 TableSize (- y) x = u16 (16384 - atan2 TableSize y x)
  /\ atan2 TableSize y (- x) = u16 (8192 - atan2 TableSize y x)
  /\ atan2 TableSize (- y) (- x) = u16 (8192 + atan2 TableSize y x).
Proof.
  intros Hx Hy. unfold atan2.
  rewrite (proj2 (Z.eqb_neq x 0)), (proj2 (Z.eqb_neq (- x) 0)) by lia.
  rewrite (proj2 (Z.ltb_ge x 0)), (proj2 (Z.ltb_ge y 0)) by lia.
  rewrite (proj2 (Z.ltb_lt (- x) 0)), (proj2 (Z.ltb_lt (- y) 0)) by lia.
  rewrite !Z.opp_involutive. cbv zeta.
  set (angle := if u32 x >=? u32 y then atan_lookup TableSize (u32 y) (u32 x)
                else u16 (Z.shiftr ANGLE_MAX 1 - atan_lookup TableSize (u32 x) (u32 y))).
  assert (Hangle : 0 <= angle < 65536).
  { subst angle. destruct (u32 x >=? u32 y); [unfold atan_lookup |]; apply u16_range. }
  cbn [b2z].
  change (u8 (Z.lor (Z.shiftl 0 1) 0)) with 0.
  change (u8 (Z.lor (Z.shiftl 0 1) 1)) with 1.
  change (u8 (Z.lor (Z.shiftl 1 1) 0)) with 2.
  change (u8 (Z.lor (Z.shiftl 1 1) 1)) with 3.
  change (at_index quadrant_offset 0) with 0.
  change (at_index quadrant_offset 1) with 16384.
  change (at_index quadrant_offset 2) with 8192.
  change (at_index quadrant_offset 3) with 8192.
  change (at_index angle_sign 0) with 1.
  change (at_index angle_sign 1) with (-1).
  change (at_index angle_sign 2) with (-1).
  change (at_index angle_sign 3) with 1.
  replace (0 + angle * 1) with angle by lia.
  rewrite (u16_fits angle) by lia.
  repeat split; f_equal; lia.
Qed.

(** X14.  For x, y > 0 the other three quadrants mirror the first: negating y
    gives 16384 minus the first-quadrant angle, negating x gives 8192 minus
    it, negating both gives 8192 plus it, each narrowed to 16 bits. *)
Theorem atan2_quadrant_mirrors (TableSize y x : Z) :
  0 < x -> 0 < y ->
  atan2 TableSize (- y) x = u16 (16384 - atan2 TableSize y x)
  /\ atan2 TableSize y (- x) = u16 (8192 - atan2 TableSize y x)
  /\ atan2 TableSize (- y) (- x) = u16 (8192 + atan2 TableSize y x).
Proof. apply atan2_reflections. Qed.

Lemma atan2_quadrant_mirrors_witness :
  atan2 128 (- 1000) 3000 = u16 (16384 - atan2 128 1000 3000)
  /\ atan2 128 1000 (- 3000) = u16 (8192 - atan2 128 1000 3000)
  /\ atan2 128 (- 1000) (- 3000) = u16 (8192 + atan2 128 1000 3000).
Proof. apply (atan2_quadrant_mirrors 128 1000 3000); lia. Defined.

(** ** Magnitude: sign and range *)

Section MagnitudeShape.

Lemma magnitude_abs_operand (x : Z) :
  - 2147483647 <= x <= 2147483647 ->
  u32 (if x <? 0 then i32 (- x) else x) = Z.abs x.
Proof.
  intros Hx. destruct (Z.ltb_spec x 0).
  - rewrite i32_fits by (unfold in_i32; lia). rewrite u32_fits; lia.
  - rewrite u32_fits; lia.
Qed.

End MagnitudeShape.

(** X16.  [magnitude] depends on its arguments only through their absolute
    values (for arguments other than INT32_MIN). *)
Theorem magnitude_ignores_signs (x y : Z) :
  - 2147483647 <= x <= 2147483647 ->
  - 2147483647 <= y <= 2147483647 ->
  magnitude x y = magnitude (Z.abs x) (Z.abs y).
Proof.
  intros Hx Hy. unfold magnitude.
  rewrite (magnitude_abs_operand x), (magnitude_abs_operand y) by assumption.
  rewrite (magnitude_abs_operand (Z.abs x)), (magnitude_abs_operand (Z.abs y)) by lia.
  rewrite !Z.abs_idemp. reflexivity.
Qed.

Lemma magnitude_ignores_signs_witness :
  magnitude (- 3000) 4000 = magnitude (Z.abs (- 3000)) (Z.abs 4000).
Proof. apply (magnitude_ignores_signs (- 3000) 4000); lia. Defined.

(** X17.  [magnitude] never returns a negative value nor one above 65535. *)
Theorem magnitude_below_65536 (x y : Z) : 0 <= magnitude x y <= 65535.
Proof.
  unfold magnitude.
  destruct (fold_left magnitude_step (indices 12) _) as [abs_x abs_y].
  assert (Hprod : 0 <= u32 (abs_x * 39797) < 4294967296)
    by (unfold u32, to_unsigned; apply Z.mod_pos_bound; reflexivity).
  rewrite Z.shiftr_div_pow2 by lia. change (2 ^ 16) with 65536.
  assert (Hq : 0 <= u32 (abs_x * 39797) / 65536 < 65536).
  { split.
    - apply Z.div_pos; lia.
    - apply Z.div_lt_upper_bound; lia. }
  rewrite i32_fits by (unfold in_i32; lia). lia.
Qed.

(** ** Degrees, milliradians and internal units *)

Section Conversions.

Lemma from_degrees_value (fuel : nat) (degrees : Z) :
  (92 <= fuel)%nat -> in_i16 degrees ->
  from_degrees fuel degrees = Some (degrees mod 360 * 16384 / 360).
Proof.
  intros Hfuel Hd. unfold in_i16 in Hd.
  pose proof (Z.mod_pos_bound degrees 360 ltac:(lia)) as Hm.
  unfold from_degrees.
  rewrite raise_loop_ends by (unfold in_i16; lia).
  set (d1 := if degrees <? 0 then degrees mod 360 else degrees).
  assert (Hd1 : 0 <= d1 <= 32767 /\ d1 mod 360 = degrees mod 360).
  { unfold d1. destruct (Z.ltb_spec degrees 0).
    - rewrite Z.mod_mod by lia. lia.
    - lia. }
  rewrite lower_loop_ends by lia.
  destruct Hd1 as [_ ->].
  rewrite (u32_fits (degrees mod 360)) by lia.
  rewrite (u32_fits (degrees mod 360 * 16384)) by lia.
  assert (Hr : 0 <= degrees mod 360 * 16384 / 360 < 16384).
  { split.
    - apply Z.div_pos; lia.
    - apply Z.div_lt_upper_bound; lia. }
  rewrite u16_fits by lia. reflexivity.
Qed.

Lemma to_degrees_value (a : Z) :
  0 <= a <= 65535 -> to_degrees a = a * 360 / 16384.
Proof.
  intros Ha. unfold to_degrees.
  rewrite (u32_fits a), (u32_fits (a * 360)) by lia.
  assert (Hq : 0 <= a * 360 / 16384 < 1440).
  { split.
    - apply Z.div_pos; lia.
    - apply Z.div_lt_upper_bound; lia. }
  apply i16_fits. unfold in_i16. lia.
Qed.

(** A check that holds on every index below [n] holds on every integer of
    that range. *)
Lemma checked_below (P : Z -> bool) (n m : Z) :
  forallb P (indices n) = true -> 0 <= m < n -> P m = true.
Proof.
  intros Hall Hm. rewrite forallb_forall in Hall. apply Hall.
  unfold indices. apply in_map_iff. exists (Z.to_nat m).
  split; [apply Z2Nat.id; lia |]. apply in_seq. lia.
Qed.

(** Degrees to units and back, on one turn: exact on the multiples of 45,
    one degree short elsewhere. *)
Lemma one_turn_there_and_back (m : Z) :
  0 <= m < 360 ->
  m * 16384 / 360 * 360 / 16384 = (if m mod 45 =? 0 then m else m - 1).
Proof.
  intros Hm. apply Z.eqb_eq.
  apply (checked_below
           (fun m => m * 16384 / 360 * 360 / 16384
                     =? (if m mod 45 =? 0 then m else m - 1)) 360 m);
    [vm_compute; reflexivity | exact Hm].
Qed.

End Conversions.

(** X18.  Degrees to internal units and back: [to_degrees (from_degrees d)] is
    d mod 360 when d is a multiple of 45 and one degree less otherwise. *)
Theorem degrees_round_trip (fuel : nat) (degrees : Z) :
  (92 <= fuel)%nat -> in_i16 degrees ->
  exists r, from_degrees fuel degrees = Some r
    /\ to_degrees r
       = (if degrees mod 45 =? 0 then degrees mod 360 else degrees mod 360 - 1).
Proof.
  intros Hfuel Hd.
  exists (degrees mod 360 * 16384 / 360).
  split; [apply from_degrees_value; assumption |].
  pose proof (Z.mod_pos_bound degrees 360 ltac:(lia)) as Hm.
  assert (Hr : 0 <= degrees mod 360 * 16384 / 360 < 16384).
  { split.
    - apply Z.div_pos; lia.
    - apply Z.div_lt_upper_bound; lia. }
  rewrite to_degrees_value by lia.
  rewrite one_turn_there_and_back by assumption.
  replace ((degrees mod 360) mod 45) with (degrees mod 45)
    by (Z.to_euclidean_division_equations; lia).
  reflexivity.
Qed.

Lemma degrees_round_trip_witness :
  exists r, from_degrees 92 30 = Some r
    /\ to_degrees r = (if 30 mod 45 =? 0 then 30 mod 360 else 30 mod 360 - 1).
Proof.
  apply (degrees_round_trip 92 30); [lia | unfold in_i16; lia].
Defined.

(** X19.  [from_degrees] gives the same angle for inputs that differ by whole
    turns of 360 degrees. *)
Theorem from_degrees_full_turns (fuel : nat) (degrees k : Z) :
  (92 <= fuel)%nat -> in_i16 degrees -> in_i16 (degrees + 360 * k) ->
  from_degrees fuel (degrees + 360 * k) = from_degrees fuel degrees.
Proof.
  intros Hfuel Hd Hdk.
  rewrite !from_degrees_value by assumption.
  rewrite (Z.mul_comm 360 k), Z_mod_plus_full. reflexivity.
Qed.

Lemma from_degrees_full_turns_witness :
  from_degrees 92 (- 330 + 360 * 2) = from_degrees 92 (- 330).
Proof.
  apply (from_degrees_full_turns 92 (- 330) 2); [lia | |]; unfold in_i16; lia.
Defined.

(** X20.  [to_degrees] does not fold its argument: on a 16-bit angle the result
    is in [0, 1439], and below 360 exactly when the angle is below 16384. *)
Theorem to_degrees_does_not_fold (a : Z) :
  0 <= a <= 65535 ->
  0 <= to_degrees a <= 1439 /\ (to_degrees a < 360 <-> a < 16384).
Proof.
  intros Ha. rewrite to_degrees_value by assumption.
  Z.to_euclidean_division_equations; lia.
Qed.

Lemma to_degrees_does_not_fold_witness :
  0 <= to_degrees 20480 <= 1439 /\ (to_degrees 20480 < 360 <-> 20480 < 16384).
Proof. apply (to_degrees_does_not_fold 20480). lia. Defined.

(** X21.  [from_milliradians] does not fold its argument: up to four turns it
    is mrad * 16384 / 6283, below 16384 exactly when mrad is below 6283. *)
Theorem from_milliradians_does_not_fold (mrad : Z) :
  0 <= mrad < 25132 ->
  from_milliradians mrad = mrad * 16384 / 6283
  /\ (from_milliradians mrad < 16384 <-> mrad < 6283).
Proof.
  intros Hm. unfold from_milliradians.
  rewrite (u32_fits mrad), (u32_fits (mrad * 16384)) by lia.
  assert (Hq : 0 <= mrad * 16384 / 6283 < 65536).
  { split.
    - apply Z.div_pos; lia.
    - apply Z.div_lt_upper_bound; lia. }
  rewrite u16_fits by lia.
  split; [reflexivity |].
  Z.to_euclidean_division_equations; lia.
Qed.

Lemma from_milliradians_does_not_fold_witness :
  from_milliradians 3141 = 3141 * 16384 / 6283
  /\ (from_milliradians 3141 < 16384 <-> 3141 < 6283).
Proof. apply (from_milliradians_does_not_fold 3141). lia. Defined.

(** ** Cosine and tangent half a period later *)

Section HalfPeriod.

Variable TableSize : Z.

Lemma sin_amplitude (a : Z) : - 21663 <= sin TableSize a <= 21663.
Proof.
  destruct (sin_value_and_sign TableSize a) as (value & Hv & -> & _).
  destruct (a mod 16384 <? 8192); lia.
Qed.

Lemma sin_opposite (a : Z) : sin TableSize (a + 8192) = - sin TableSize a.
Proof.
  destruct (sin_value_and_sign TableSize a) as (value & _ & -> & ->).
  destruct (a mod 16384 <? 8192); lia.
Qed.

Lemma cos_amplitude (a : Z) : - 21663 <= cos TableSize a <= 21663.
Proof. unfold cos. apply sin_amplitude. Qed.

Lemma cos_opposite (a : Z) : cos TableSize (a + 8192) = - cos TableSize a.
Proof.
  rewrite !cos_shift_2048.
  rewrite (sin_periodic TableSize ((a + 8192 + 2048) mod 16384) (a + 2048 + 8192)).
  - rewrite sin_opposite. f_equal. apply sin_periodic. rewrite Z.mod_mod by lia. reflexivity.
  - rewrite Z.mod_mod by lia. f_equal. lia.
Qed.

End HalfPeriod.

(** X5.  Away from saturation (|cos a| >= 100), [tan] has period 8192. *)
Theorem tan_half_period (TableSize a : Z) :
  100 <= Z.abs (cos TableSize a) ->
  tan TableSize (a + 8192) = tan TableSize a.
Proof.
  intros Hfar. unfold tan. rewrite sin_opposite, cos_opposite.
  pose proof (sin_amplitude TableSize a) as Hs.
  set (s := sin TableSize a) in *. set (c := cos TableSize a) in *.
  replace ((-100 <? - c) && (- c <? 100)) with false.
  replace ((-100 <? c) && (c <? 100)) with false.
  - unfold cdiv.
    rewrite (proj2 (Z.eqb_neq c 0)), (proj2 (Z.eqb_neq (- c) 0)) by lia.
    rewrite (i32_fits (s * OUTPUT_SCALE)), (i32_fits (- s * OUTPUT_SCALE))
      by (unfold in_i32, OUTPUT_SCALE; lia).
    rewrite Z.mul_opp_l, Z.quot_opp_opp by lia. reflexivity.
  - symmetry. apply andb_false_iff.
    destruct (Z.le_ge_cases 0 c); [right | left]; apply Z.ltb_ge; lia.
  - symmetry. apply andb_false_iff.
    destruct (Z.le_ge_cases 0 c); [left | right]; apply Z.ltb_ge; lia.
Qed.

Lemma tan_half_period_witness : tan 128 (1000 + 8192) = tan 128 1000.
Proof. apply (tan_half_period 128 1000). vm_compute. discriminate. Defined.

(** ** Vectors: the 32-bit intermediates *)

(** X22.  [rotate] on 16-bit coordinates never overflows its 32-bit
    intermediates: each component is the floor of the exact combination
    divided by 16384, narrowed to 16 bits. *)
Theorem rotate_without_overflow (TableSize vx vy a : Z) :
  in_i16 vx -> in_i16 vy ->
  Vector2D.rotate TableSize (Vector2D.mkVec2 vx vy) a
  = Vector2D.mkVec2
      (i16 ((vx * cos TableSize a - vy * sin TableSize a) / 16384))
      (i16 ((vx * sin TableSize a + vy * cos TableSize a) / 16384)).
Proof.
  unfold in_i16. intros Hx Hy. unfold Vector2D.rotate. cbn [Vector2D.x Vector2D.y].
  pose proof (sin_amplitude TableSize a) as Hs.
  pose proof (cos_amplitude TableSize a) as Hc.
  set (s := sin TableSize a) in *. set (c := cos TableSize a) in *.
  rewrite (i32_fits vx), (i32_fits vy) by (unfold in_i32; lia).
  assert (Hxc : - 709853184 <= vx * c <= 709853184) by nia.
  assert (Hys : - 709853184 <= vy * s <= 709853184) by nia.
  assert (Hxs : - 709853184 <= vx * s <= 709853184) by nia.
  assert (Hyc : - 709853184 <= vy * c <= 709853184) by nia.
  rewrite (i32_fits (vx * c)), (i32_fits (vy * s)),
    (i32_fits (vx * s)), (i32_fits (vy * c)) by (unfold in_i32; lia).
  rewrite !i32_fits by (unfold in_i32; lia).
  rewrite !Z.shiftr_div_pow2 by lia. reflexivity.
Qed.

Lemma rotate_without_overflow_witness :
  Vector2D.rotate 128 (Vector2D.mkVec2 (- 32768) 32767) 1000
  = Vector2D.mkVec2
      (i16 ((- 32768 * cos 128 1000 - 32767 * sin 128 1000) / 16384))
      (i16 ((- 32768 * sin 128 1000 + 32767 * cos 128 1000) / 16384)).
Proof.
  apply (rotate_without_overflow 128 (- 32768) 32767 1000); unfold in_i16; lia.
Defined.

(** X23.  [from_polar] on a 16-bit magnitude never overflows its 32-bit
    products. *)
Theorem from_polar_without_overflow (TableSize a m : Z) :
  in_i16 m ->
  Vector2D.from_polar TableSize (Vector2D.mkPolar a m)
  = Vector2D.mkVec2 (i16 (m * cos TableSize a / 16384))
                    (i16 (m * sin TableSize a / 16384)).
Proof.
  unfold in_i16. intros Hm. unfold Vector2D.from_polar.
  cbn [Vector2D.angle Vector2D.magnitude].
  pose proof (sin_amplitude TableSize a) as Hs.
  pose proof (cos_amplitude TableSize a) as Hc.
  set (s := sin TableSize a) in *. set (c := cos TableSize a) in *.
  rewrite (i32_fits m) by (unfold in_i32; lia).
  assert (Hmc : - 709853184 <= m * c <= 709853184) by nia.
  assert (Hms : - 709853184 <= m * s <= 709853184) by nia.
  rewrite !i32_fits by (unfold in_i32; lia).
  rewrite !Z.shiftr_div_pow2 by lia. reflexivity.
Qed.

Lemma from_polar_without_overflow_witness :
  Vector2D.from_polar 128 (Vector2D.mkPolar 1000 (- 32768))
  = Vector2D.mkVec2 (i16 (- 32768 * cos 128 1000 / 16384))
                    (i16 (- 32768 * sin 128 1000 / 16384)).
Proof.
  apply (from_polar_without_overflow 128 1000 (- 32768)); unfold in_i16; lia.
Defined.


(** X4.  Half a period later [sincos] returns both components negated. *)
Theorem sincos_half_period (TableSize a : Z) :
  sincos TableSize (a + 8192)
  = (- fst (sincos TableSize a), - snd (sincos TableSize a)).
Proof.
  unfold sincos. cbn [fst snd]. rewrite sin_opposite, cos_opposite. reflexivity.
Qed.

(** ** The arcsine table: first entry, order and range *)

Section ArcsineTable.

(** A larger target never ends on a lower bracket. *)
Lemma asin_bracket_monotone (fuel : nat) (t1 t2 low high : Z) :
  t1 <= t2 -> 0 <= low < high -> high <= 4096 ->
  high - low <= 2 ^ Z.of_nat fuel ->
  fst (asin_bracket fuel t1 low high) <= fst (asin_bracket fuel t2 low high).
Proof.
  intros Ht. revert low high.
  induction fuel as [| fuel IH]; intros low high Hlh Hhi Hw.
  - cbn [asin_bracket fst]. lia.
  - cbn [asin_bracket].
    rewrite Nat2Z.inj_succ, Z.pow_succ_r in Hw by lia.
    rewrite (u32_fits (high - low)) by lia.
    destruct (Z.gtb_spec (high - low) 1) as [Hopen | Hshut]; [| cbn [fst]; lia].
    rewrite (u32_fits (low + high)) by lia.
    pose proof (Z.div_mod (low + high) 2 ltac:(lia)) as Hmid.
    pose proof (Z.mod_pos_bound (low + high) 2 ltac:(lia)) as Hrem.
    set (mid := (low + high) / 2) in *.
    destruct (Z.ltb_spec (sin_internal mid) t1) as [H1 | H1];
      destruct (Z.ltb_spec (sin_internal mid) t2) as [H2 | H2].
    + apply IH; lia.
    + lia.
    + pose proof (asin_bracket_inside fuel t1 low mid ltac:(lia) ltac:(lia) ltac:(lia)) as Ha.
      pose proof (asin_bracket_inside fuel t2 mid high ltac:(lia) ltac:(lia) ltac:(lia)) as Hb.
      destruct (asin_bracket fuel t1 low mid), (asin_bracket fuel t2 mid high).
      cbn [fst]. lia.
    + apply IH; lia.
Qed.

(** With a target of 0 the bisection keeps the lower end. *)
Lemma asin_bracket_floor (fuel : nat) (low high : Z) :
  0 <= low < high -> high <= 4096 ->
  high - low <= 2 ^ Z.of_nat fuel ->
  fst (asin_bracket fuel 0 low high) = low.
Proof.
  revert high.
  induction fuel as [| fuel IH]; intros high Hlh Hhi Hw.
  - reflexivity.
  - cbn [asin_bracket].
    rewrite Nat2Z.inj_succ, Z.pow_succ_r in Hw by lia.
    rewrite (u32_fits (high - low)) by lia.
    destruct (Z.gtb_spec (high - low) 1) as [Hopen | Hshut]; [| reflexivity].
    rewrite (u32_fits (low + high)) by lia.
    pose proof (Z.div_mod (low + high) 2 ltac:(lia)) as Hmid.
    pose proof (Z.mod_pos_bound (low + high) 2 ltac:(lia)) as Hrem.
    set (mid := (low + high) / 2) in *.
    pose proof (sin_internal_bounds mid ltac:(lia)) as Hsin.
    destruct (Z.ltb_spec (sin_internal mid) 0); [lia |].
    apply IH; lia.
Qed.

Variable TableSize : Z.
Hypothesis size_range : 1 <= TableSize <= 4096.

(** An entry is the lower end of the final bracket. *)
Lemma asin_entry_low (i : Z) :
  asin_entry TableSize i
  = fst (asin_bracket 32 (i32 (i * OUTPUT_SCALE * 2 / TableSize)) 0 4096).
Proof.
  unfold asin_entry. change (ANGLE_MAX / 2) with 4096.
  set (target := i32 (i * OUTPUT_SCALE * 2 / TableSize)).
  pose proof (asin_bracket_inside 32 target 0 4096 ltac:(lia) ltac:(lia)) as H.
  destruct (asin_bracket 32 target 0 4096) as [l h].
  destruct H as (Hl & -> & Hh);
    [change (2 ^ Z.of_nat 32) with 4294967296; lia |].
  rewrite (u32_fits (l + (l + 1))) by lia.
  replace ((l + (l + 1)) / 2) with l by (Z.to_euclidean_division_equations; lia).
  cbn [fst]. apply u16_fits. lia.
Qed.

Lemma asin_entry_monotone (i j : Z) :
  0 <= i <= j -> j < TableSize ->
  asin_entry TableSize i <= asin_entry TableSize j.
Proof.
  intros Hij Hj. rewrite !asin_entry_low.
  apply asin_bracket_monotone;
    [| lia | lia | change (2 ^ Z.of_nat 32) with 4294967296; lia].
  unfold OUTPUT_SCALE.
  assert (Hfit : forall k, 0 <= k < TableSize ->
            in_i32 (k * 8192 * 2 / TableSize)).
  { intros k Hk. unfold in_i32.
    assert (0 <= k * 8192 * 2 / TableSize) by (apply Z.div_pos; lia).
    assert (k * 8192 * 2 / TableSize < 16384)
      by (apply Z.div_lt_upper_bound; nia).
    lia. }
  rewrite !i32_fits by (apply Hfit; lia).
  apply Z.div_le_mono; lia.
Qed.

Lemma nondecreasing_from (f : Z -> Z) (start len : nat) :
  (forall i j : Z, Z.of_nat start <= i <= j ->
                   j < Z.of_nat (start + len) -> f i <= f j) ->
  nondecreasing (map f (map Z.of_nat (seq start len))) = true.
Proof.
  revert start. induction len as [| len IH]; intros start Hmono.
  - reflexivity.
  - destruct len as [| len']; [reflexivity |].
    change (nondecreasing (map f (map Z.of_nat (seq start (S (S len'))))))
      with ((f (Z.of_nat start) <=? f (Z.of_nat (S start)))
            && nondecreasing (map f (map Z.of_nat (seq (S start) (S len'))))).
    apply andb_true_iff. split.
    + apply Z.leb_le, Hmono; lia.
    + apply IH. intros i j Hij Hj. apply Hmono; lia.
Qed.

Lemma asin_table_first_entry :
  at_index (asin_quarter_table TableSize) 0 = 0.
Proof.
  unfold asin_quarter_table, generate_asin_quarter_table, indices, at_index.
  destruct (Z.to_nat TableSize) as [| n] eqn:Hn; [lia |].
  cbn [seq map nth Z.to_nat]. rewrite asin_entry_low.
  change (i32 (Z.of_nat 0 * OUTPUT_SCALE * 2 / TableSize)) with (i32 (0 / TableSize)).
  rewrite Z.div_0_l by lia. change (i32 0) with 0.
  apply asin_bracket_floor;
    [lia | lia | change (2 ^ Z.of_nat 32) with 4294967296; lia].
Qed.

Lemma asin_table_nondecreasing :
  nondecreasing (asin_quarter_table TableSize) = true.
Proof.
  unfold asin_quarter_table, generate_asin_quarter_table, indices.
  apply nondecreasing_from. intros i j Hij Hj.
  apply asin_entry_monotone; lia.
Qed.

End ArcsineTable.

(** X9.  For a valid table size the generated arcsine table starts at 0, never
    decreases, and holds only angles between 0 and 4095. *)
Theorem asin_table_shape (TableSize : Z) :
  valid_table_size TableSize = true ->
  at_index (asin_quarter_table TableSize) 0 = 0
  /\ nondecreasing (asin_quarter_table TableSize) = true
  /\ Forall (fun e => 0 <= e <= 4095) (asin_quarter_table TableSize).
Proof.
  intros Hvalid. apply valid_table_size_range in Hvalid.
  split; [| split].
  - apply asin_table_first_entry. lia.
  - apply asin_table_nondecreasing. lia.
  - apply asin_table_bounds.
Qed.

Lemma asin_table_shape_witness :
  at_index (asin_quarter_table 128) 0 = 0
  /\ nondecreasing (asin_quarter_table 128) = true
  /\ Forall (fun e => 0 <= e <= 4095) (asin_quarter_table 128).
Proof. apply (asin_table_shape 128). reflexivity. Defined.

(** X15.  For v > 0, [atan (- v)] is 16384 minus [atan v], narrowed to 16
    bits. *)
Theorem atan_reflects_negative_input (TableSize v : Z) :
  0 < v -> atan TableSize (- v) = u16 (16384 - atan TableSize v).
Proof.
  intros Hv. unfold atan. change (i16 (OUTPUT_SCALE * 2)) with 16384.
  apply (atan2_reflections TableSize v 16384); lia.
Qed.

Lemma atan_reflects_negative_input_witness :
  atan 128 (- 1000) = u16 (16384 - atan 128 1000).
Proof. apply (atan_reflects_negative_input 128 1000). lia. Defined.

Lemma asin_clamp (TableSize v : Z) :
  16384 <= v < 4294967296 -> asin TableSize v = asin TableSize 16384.
Proof.
  intros Hv. unfold asin.
  assert (Hsign : (v <? 0) = false) by (apply Z.ltb_ge; lia).
  rewrite Hsign. change (16384 <? 0) with false. cbv iota.
  rewrite (u32_fits v) by lia.
  change (u32 16384) with 16384. change (OUTPUT_SCALE * 2) with 16384.
  change (16384 >? 16384) with false. cbv iota.
  destruct (Z.gtb_spec v 16384) as [Hgt | Hle].
  - reflexivity.
  - replace v with 16384 by lia. reflexivity.
Qed.

(** X13.  [asin] saturates: a 16-bit input of absolute value 16384 or more
    gives the result of +16384 or -16384, by its sign. *)
Theorem asin_saturates_beyond_16384 (TableSize v : Z) :
  in_i16 v -> 16384 <= Z.abs v ->
  asin TableSize v = asin TableSize (if v <? 0 then - 16384 else 16384).
Proof.
  unfold in_i16. intros Hv Hbig.
  destruct (Z.ltb_spec v 0) as [Hneg | Hpos].
  - replace v with (- - v) at 1 by lia.
    rewrite (asin_reflects_negative TableSize (- v)) by lia.
    change (asin TableSize (-16384)) with (asin TableSize (Z.opp 16384)).
    rewrite (asin_reflects_negative TableSize 16384) by lia.
    rewrite (asin_clamp TableSize (- v)) by lia. reflexivity.
  - apply asin_clamp. lia.
Qed.

Lemma asin_saturates_beyond_16384_witness :
  asin 128 (- 32768) = asin 128 (if - 32768 <? 0 then - 16384 else 16384).
Proof.
  apply (asin_saturates_beyond_16384 128 (- 32768)); [unfold in_i16 |]; lia.
Defined.

Lemma sin_reads_inside_table_witness : sin_checked 128 0 = Some (sin 128 0).
Proof. apply (sin_reads_inside_table 128 0). reflexivity. Defined.

Lemma asin_reads_inside_table_witness :
  asin_checked 128 16384 = Some (asin 128 16384).
Proof. apply (asin_reads_inside_table 128 16384). reflexivity. Defined.

Lemma table_memory_is_six_bytes_per_entry_witness :
  table_memory 128 = 6 * table_size 128.
Proof. apply (table_memory_is_six_bytes_per_entry 128). lia. Defined.
